(** * jog_arm: the low-pass filter and the shared state of the jog server

    A shallow embedding of [jog_arm/include/jog_arm/jog_arm_server.h].
    The header carries the whole of [LowPassFilter] (constructor, [reset],
    [filter]) and the default member initialisers of [jog_arm_shared]; the
    bodies of the [JogCalcs] methods are only declared there.

    The C++ [double] is kept abstract behind the class [Double], so that
    the filter is translated once and then read at two carriers:
    - [float], IEEE 754 binary64 with round-to-nearest-even, which is what
      the compiled code computes and which evaluates inside Rocq;
    - [R], exact real arithmetic, the idealisation in which the algebraic
      facts about the filter are stated. *)

From Stdlib Require Import Reals Lra ZArith List Bool String Floats.
Import ListNotations.

(** ** The arithmetic of [double] *)

Class Double (F : Type) : Type := {
  dadd : F -> F -> F;
  dsub : F -> F -> F;
  dmul : F -> F -> F;
  ddiv : F -> F -> F;
  (** an [int] literal promoted to [double] *)
  of_int : Z -> F;
  (** the literal [1.414] *)
  lit_1_414 : F
}.

Declare Scope double_scope.
Delimit Scope double_scope with dbl.
Infix "+" := dadd : double_scope.
Infix "-" := dsub : double_scope.
Infix "*" := dmul : double_scope.
Infix "/" := ddiv : double_scope.

#[export] Instance Double_R : Double R := {
  dadd := Rplus;
  dsub := Rminus;
  dmul := Rmult;
  ddiv := Rdiv;
  of_int := IZR;
  lit_1_414 := 1.414%R
}.

#[export] Instance Double_binary64 : Double float := {
  dadd := PrimFloat.add;
  dsub := PrimFloat.sub;
  dmul := PrimFloat.mul;
  ddiv := PrimFloat.div;
  of_int := fun z =>
    match z with
    | Z0 => PrimFloat.zero
    | Zpos p => PrimFloat.of_uint63 (Uint63.of_Z (Zpos p))
    | Zneg p => PrimFloat.opp (PrimFloat.of_uint63 (Uint63.of_Z (Zpos p)))
    end;
  lit_1_414 := 0x1.69fbe76c8b439p+0%float
}.

(** ** Class LowPassFilter *)

Module LowPassFilter.
Section Filter.
Context {F : Type} `{Double F}.
Local Open Scope double_scope.

(** The members of the class: [filter_coeff_], [prev_msrmts_[0..2]] and
    [prev_filtered_msrmts_[0..1]]. *)
Record t : Type := mk {
  filter_coeff_ : F;
  prev_msrmts_0 : F;
  prev_msrmts_1 : F;
  prev_msrmts_2 : F;
  prev_filtered_msrmts_0 : F;
  prev_filtered_msrmts_1 : F
}.

(** [LowPassFilter::LowPassFilter]: the arrays keep their default member
    initialisers, all [0.]; the coefficient is overwritten. *)
Definition new (low_pass_filter_coeff : F) : t :=
  {| filter_coeff_ := low_pass_filter_coeff;
     prev_msrmts_0 := of_int 0;
     prev_msrmts_1 := of_int 0;
     prev_msrmts_2 := of_int 0;
     prev_filtered_msrmts_0 := of_int 0;
     prev_filtered_msrmts_1 := of_int 0 |}.

(** [LowPassFilter::reset] *)
Definition reset (f : t) (data : F) : t :=
  {| filter_coeff_ := filter_coeff_ f;
     prev_msrmts_0 := data;
     prev_msrmts_1 := data;
     prev_msrmts_2 := data;
     prev_filtered_msrmts_0 := data;
     prev_filtered_msrmts_1 := data |}.

(** The divisor [1 + filter_coeff_ * filter_coeff_ + 1.414 * filter_coeff_]. *)
Definition divisor (c : F) : F :=
  of_int 1 + c * c + lit_1_414 * c.

(** [LowPassFilter::filter]: the object after the call and the value
    returned.  The right-hand side is read after the three pushes, so
    [prev_msrmts_[2]], [prev_msrmts_[1]], [prev_msrmts_[0]] are the old
    slot 1, the old slot 0 and the new measurement; the operations keep the
    left-to-right association of the C++ expression. *)
Definition filter (f : t) (new_msrmt : F) : t * F :=
  let c := filter_coeff_ f in
  let m2 := prev_msrmts_1 f in
  let m1 := prev_msrmts_0 f in
  let m0 := new_msrmt in
  let new_filtered_msrmt :=
    (of_int 1 / divisor c) *
    (m2 + of_int 2 * m1 + m0
     - (c * c - lit_1_414 * c + of_int 1) * prev_filtered_msrmts_1 f
     - (of_int (-2) * c * c + of_int 2) * prev_filtered_msrmts_0 f) in
  ({| filter_coeff_ := c;
      prev_msrmts_0 := m0;
      prev_msrmts_1 := m1;
      prev_msrmts_2 := m2;
      prev_filtered_msrmts_0 := new_filtered_msrmt;
      prev_filtered_msrmts_1 := prev_filtered_msrmts_0 f |},
   new_filtered_msrmt).

(** The five history slots, raw then filtered. *)
Definition history (f : t) : list F :=
  [prev_msrmts_0 f; prev_msrmts_1 f; prev_msrmts_2 f;
   prev_filtered_msrmts_0 f; prev_filtered_msrmts_1 f].

(** Successive calls [filter(x)] for the measurements of [xs], oldest
    first: the object after the last call and the values returned. *)
Fixpoint run (f : t) (xs : list F) : t * list F :=
  match xs with
  | [] => (f, [])
  | x :: xs' =>
      let (f1, y) := filter f x in
      let (f2, ys) := run f1 xs' in
      (f2, y :: ys)
  end.

(** The recurrence as section 4.1 of the specification words it, kept
    apart from [filter] to be compared with it: [x_n] the new measurement,
    [x_n1], [x_n2] the two previous raw samples, [y_n1] the most recently
    returned filtered value and [y_n2] the one before it. *)
Definition spec_4_1_recurrence (c x_n x_n1 x_n2 y_n1 y_n2 : F) : F :=
  (of_int 1 / (of_int 1 + c * c + lit_1_414 * c)) *
  (x_n + of_int 2 * x_n1 + x_n2
   - (c * c - lit_1_414 * c + of_int 1) * y_n1
   - (of_int (-2) * c * c + of_int 2) * y_n2).

End Filter.
Arguments t F : clear implicits.
End LowPassFilter.

(** ** ROS messages held by the shared state

    The message types come from ROS ([geometry_msgs], [sensor_msgs],
    [trajectory_msgs]) and from [jog_msgs]; only their data members are
    kept.  A default-constructed message has empty strings and sequences
    and zero numbers.  [ros::Time] is kept as its number of seconds. *)

Section Messages.
Context {F : Type} `{Double F}.

Record Time : Type := { toSec : F }.

Record Header : Type := { stamp : Time; frame_id : string }.

Definition Header_default : Header :=
  {| stamp := {| toSec := of_int 0 |}; frame_id := EmptyString |}.

Record Vector3 : Type := { vx : F; vy : F; vz : F }.

Definition Vector3_default : Vector3 :=
  {| vx := of_int 0; vy := of_int 0; vz := of_int 0 |}.

Record TwistStamped : Type := {
  twist_header : Header;
  linear : Vector3;
  angular : Vector3
}.

Definition TwistStamped_default : TwistStamped :=
  {| twist_header := Header_default;
     linear := Vector3_default;
     angular := Vector3_default |}.

Record JogJoint : Type := {
  jog_header : Header;
  jog_joint_names : list string;
  deltas : list F
}.

Definition JogJoint_default : JogJoint :=
  {| jog_header := Header_default; jog_joint_names := []; deltas := [] |}.

Record JointState : Type := {
  joints_header : Header;
  name : list string;
  position : list F;
  velocity : list F;
  effort : list F
}.

Definition JointState_default : JointState :=
  {| joints_header := Header_default;
     name := []; position := []; velocity := []; effort := [] |}.

Record JointTrajectoryPoint : Type := {
  positions : list F;
  velocities : list F;
  accelerations : list F;
  time_from_start : F
}.

Record JointTrajectory : Type := {
  traj_header : Header;
  joint_names : list string;
  points : list JointTrajectoryPoint
}.

Definition JointTrajectory_default : JointTrajectory :=
  {| traj_header := Header_default; joint_names := []; points := [] |}.

(** ** struct jog_arm_shared

    The data members with their default member initialisers; the
    [pthread_mutex_t] next to each member guards it and holds no data. *)
Record jog_arm_shared : Type := {
  command_deltas : TwistStamped;
  joint_command_deltas : JogJoint;
  joints : JointState;
  collision_velocity_scale : F;
  zero_cartesian_cmd_flag : bool;
  zero_joint_cmd_flag : bool;
  command_is_stale : bool;
  new_traj : JointTrajectory;
  incoming_cmd_stamp : Time;
  ok_to_publish : bool
}.

(** A [jog_arm_shared] as the declaration [static struct jog_arm_shared
    shared_variables_] leaves it. *)
Definition jog_arm_shared_init : jog_arm_shared :=
  {| command_deltas := TwistStamped_default;
     joint_command_deltas := JogJoint_default;
     joints := JointState_default;
     collision_velocity_scale := of_int 1;
     zero_cartesian_cmd_flag := true;
     zero_joint_cmd_flag := true;
     command_is_stale := false;
     new_traj := JointTrajectory_default;
     incoming_cmd_stamp := {| toSec := of_int 0 |};
     ok_to_publish := false |}.

(** ** struct jog_arm_parameters *)
Record jog_arm_parameters : Type := {
  move_group_name : string;
  joint_topic : string;
  cartesian_command_in_topic : string;
  command_frame : string;
  command_out_topic : string;
  planning_frame : string;
  warning_topic : string;
  joint_command_in_topic : string;
  command_in_type : string;
  command_out_type : string;
  linear_scale : F;
  rotational_scale : F;
  joint_scale : F;
  lower_singularity_threshold : F;
  hard_stop_singularity_threshold : F;
  lower_collision_proximity_threshold : F;
  hard_stop_collision_proximity_threshold : F;
  low_pass_filter_coeff : F;
  publish_period : F;
  publish_delay : F;
  incoming_command_timeout : F;
  joint_limit_margin : F;
  collision_check_rate : F;
  gazebo : bool;
  collision_check : bool;
  publish_joint_positions : bool;
  publish_joint_velocities : bool;
  publish_joint_accelerations : bool
}.

End Messages.
Arguments Time F : clear implicits.
Arguments Header F : clear implicits.
Arguments Vector3 F : clear implicits.
Arguments TwistStamped F : clear implicits.
Arguments JogJoint F : clear implicits.
Arguments JointState F : clear implicits.
Arguments JointTrajectoryPoint F : clear implicits.
Arguments JointTrajectory F : clear implicits.
Arguments jog_arm_shared F : clear implicits.
Arguments jog_arm_parameters F : clear implicits.

(** * The jog engine

    The header declares the methods of [JogCalcs] and the collision thread
    but holds none of their bodies.  The definitions of this module follow
    sections 3, 4.2 to 4.5 and 6 of the specification instead, over exact
    reals.  Left out, because no property below depends on them: the
    zero-command flags, the padding of a trajectory with redundant points,
    the choice of reported fields and the failure of the robot-model
    service. *)

Module JogCalcs.
Local Open Scope R_scope.

(** Modelled from the spec: the body of the two-threshold policy shared by
    [decelerateForSingularity] and the collision thread (4.2 step 4, 4.4):
    full speed from the lower threshold on, zero at or below the hard-stop
    threshold, and a continuous (here linear) ramp in between. *)
Definition two_threshold_scale (lower hard_stop proximity : R) : R :=
  if Rle_dec proximity hard_stop then 0
  else if Rle_dec lower proximity then 1
  else (proximity - hard_stop) / (lower - hard_stop).

(** Modelled from the spec: the clamp of section 3, "always clamped to
    [0, 1]". *)
Definition clamp01 (s : R) : R := Rmax 0 (Rmin 1 s).

(** Modelled from the spec: what the robot-model service returns for the
    current configuration and command (section 6, 4.2 steps 2 and 4): the
    pseudoinverse of the Jacobian, one row per joint, the smallest singular
    value the commanded motion leads to, and whether that motion moves
    toward the singularity. *)
Record JacobianData : Type := {
  pseudoinverse : list (list R);
  smallest_singular_value : R;
  toward_singularity : bool
}.

(** Modelled from the spec: the per-joint bounds of [getJointLimits]
    (section 6). *)
Record JointLimit : Type := {
  min_position : R;
  max_position : R;
  max_velocity : R
}.

(** The data members of [JogCalcs] that the calculation uses, and the
    limits read through [joint_model_group_]. *)
Record t : Type := {
  jt_state_ : JointState R;
  velocity_filters_ : list (LowPassFilter.t R);
  position_filters_ : list (LowPassFilter.t R);
  parameters_ : jog_arm_parameters R;
  joint_limits_ : list JointLimit
}.

(** Modelled from the spec: the body of [decelerateForSingularity]
    (4.2 step 4): zero at or below [hard_stop_singularity_threshold];
    above it the ramp applies only to motion toward the singularity. *)
Definition decelerateForSingularity (p : jog_arm_parameters R)
    (jd : JacobianData) : R :=
  if Rle_dec (smallest_singular_value jd) (hard_stop_singularity_threshold p)
  then 0
  else if toward_singularity jd
  then two_threshold_scale (lower_singularity_threshold p)
         (hard_stop_singularity_threshold p) (smallest_singular_value jd)
  else 1.

(** Modelled from the spec: the scale the collision thread computes from
    the minimum distance to collision (4.4). *)
Definition collisionVelocityScale (p : jog_arm_parameters R)
    (min_distance : R) : R :=
  two_threshold_scale (lower_collision_proximity_threshold p)
    (hard_stop_collision_proximity_threshold p) min_distance.

(** The write of [collision_velocity_scale], the other members kept. *)
Definition set_collision_velocity_scale (sv : jog_arm_shared R) (s : R)
    : jog_arm_shared R :=
  {| command_deltas := command_deltas sv;
     joint_command_deltas := joint_command_deltas sv;
     joints := joints sv;
     collision_velocity_scale := s;
     zero_cartesian_cmd_flag := zero_cartesian_cmd_flag sv;
     zero_joint_cmd_flag := zero_joint_cmd_flag sv;
     command_is_stale := command_is_stale sv;
     new_traj := new_traj sv;
     incoming_cmd_stamp := incoming_cmd_stamp sv;
     ok_to_publish := ok_to_publish sv |}.

(** Modelled from the spec: one cycle of the collision thread, the only
    writer of [collision_velocity_scale] (4.4). *)
Definition collisionCheckCycle (p : jog_arm_parameters R)
    (min_distance : R) (sv : jog_arm_shared R) : jog_arm_shared R :=
  set_collision_velocity_scale sv (collisionVelocityScale p min_distance).

(** Modelled from the spec: the ScaleFactor of section 3, the singularity
    scale combined with the collision scale read from the shared state,
    clamped to [0, 1]. *)
Definition ScaleFactor (p : jog_arm_parameters R) (jd : JacobianData)
    (sv : jog_arm_shared R) : R :=
  clamp01 (decelerateForSingularity p jd * collision_velocity_scale sv).

(** Modelled from the spec: the body of [scaleCartesianCommand]
    (4.2 step 1). *)
Definition scaleCartesianCommand (p : jog_arm_parameters R)
    (command : TwistStamped R) : list R :=
  [linear_scale p * vx (linear command);
   linear_scale p * vy (linear command);
   linear_scale p * vz (linear command);
   rotational_scale p * vx (angular command);
   rotational_scale p * vy (angular command);
   rotational_scale p * vz (angular command)].

(** The inner product of a row of the pseudoinverse with the target
    velocity. *)
Fixpoint dot (u v : list R) : R :=
  match u, v with
  | a :: u', b :: v' => a * b + dot u' v'
  | _, _ => 0
  end.

(** Modelled from the spec: the increment [J+ * v_target] (4.2 step 3). *)
Definition mat_vec (m : list (list R)) (v : list R) : list R :=
  map (fun row => dot row v) m.

(** Modelled from the spec: the clamp of one component against the
    velocity limit, then against the position limits less the margin, for a
    joint at position [q] moving for one publish period (4.2 step 6). *)
Definition clampJoint (margin period : R) (l : JointLimit) (q v : R) : R :=
  let v1 := Rmax (- max_velocity l) (Rmin (max_velocity l) v) in
  Rmax ((min_position l + margin - q) / period)
       (Rmin ((max_position l - margin - q) / period) v1).

(** Modelled from the spec: the body of [enforceJointVelocityLimits]
    (4.2 step 6, 4.3): each component is clamped on its own; a component
    without a limit or a known position is left as it is. *)
Fixpoint clampJoints (margin period : R) (ls : list JointLimit)
    (qs vs : list R) {struct vs} : list R :=
  match vs, ls, qs with
  | v :: vs', l :: ls', q :: qs' =>
      clampJoint margin period l q v :: clampJoints margin period ls' qs' vs'
  | _, _, _ => vs
  end.

Definition enforceJointVelocityLimits (jc : t)
    (calculated_joint_vel : list R) : list R :=
  clampJoints (joint_limit_margin (parameters_ jc))
    (publish_period (parameters_ jc))
    (joint_limits_ jc) (position (jt_state_ jc)) calculated_joint_vel.

(** Modelled from the spec: the body of [lowPassFilterVelocities] and of
    [lowPassFilterPositions] (4.2 step 7): the filter of each joint takes
    the value of that joint; a value without a filter passes unchanged. *)
Fixpoint filterEach (fs : list (LowPassFilter.t R)) (xs : list R)
    : list (LowPassFilter.t R) * list R :=
  match fs, xs with
  | f :: fs', x :: xs' =>
      let (f1, y) := LowPassFilter.filter f x in
      let (fs1, ys) := filterEach fs' xs' in
      (f1 :: fs1, y :: ys)
  | _, _ => (fs, xs)
  end.

(** Modelled from the spec: the integration of 4.2 step 7, one publish
    period of each velocity added to the position of its joint. *)
Fixpoint integrate (period : R) (qs vs : list R) : list R :=
  match qs, vs with
  | q :: qs', v :: vs' => q + v * period :: integrate period qs' vs'
  | _, _ => qs
  end.

(** Modelled from the spec: the filter of each joint reset with the value
    of that joint (4.5, 4.1 [reset]). *)
Fixpoint resetEach (fs : list (LowPassFilter.t R)) (xs : list R)
    : list (LowPassFilter.t R) :=
  match fs, xs with
  | f :: fs', x :: xs' => LowPassFilter.reset f x :: resetEach fs' xs'
  | _, _ => map (fun f => LowPassFilter.reset f 0) fs
  end.

(** Modelled from the spec: the body of [resetVelocityFilters] (4.5): the
    velocity filters restart from the zero velocity of the halt, the
    position filters from the position that is held. *)
Definition resetVelocityFilters (jc : t) : t :=
  {| jt_state_ := jt_state_ jc;
     velocity_filters_ :=
       map (fun f => LowPassFilter.reset f 0) (velocity_filters_ jc);
     position_filters_ :=
       resetEach (position_filters_ jc) (position (jt_state_ jc));
     parameters_ := parameters_ jc;
     joint_limits_ := joint_limits_ jc |}.

(** Modelled from the spec: the body of [updateJoints]: the joint state of
    the shared state, the last known one, seeds the calculation
    (section 3). *)
Definition updateJoints (jc : t) (sv : jog_arm_shared R) : t :=
  {| jt_state_ := joints sv;
     velocity_filters_ := velocity_filters_ jc;
     position_filters_ := position_filters_ jc;
     parameters_ := parameters_ jc;
     joint_limits_ := joint_limits_ jc |}.

(** Modelled from the spec: the body of [composeOutgoingMessage]
    (4.2 step 8): one point, a publish period from the start. *)
Definition composeOutgoingMessage (jc : t) (joint_state : JointState R)
    (at_time : Time R) : JointTrajectory R :=
  {| traj_header :=
       {| stamp := at_time;
          frame_id := planning_frame (parameters_ jc) |};
     joint_names := name joint_state;
     points :=
       [{| positions := position joint_state;
           velocities := velocity joint_state;
           accelerations := [];
           time_from_start := publish_period (parameters_ jc) |}] |}.

(** Modelled from the spec: the body of [halt] (4.2 step 9, 4.5): every
    point holds the last known positions at zero velocity. *)
Definition halt (jc : t) (jt_traj : JointTrajectory R) : JointTrajectory R :=
  {| traj_header := traj_header jt_traj;
     joint_names := joint_names jt_traj;
     points :=
       map (fun pt =>
              {| positions := position (jt_state_ jc);
                 velocities := map (fun _ => 0) (position (jt_state_ jc));
                 accelerations := accelerations pt;
                 time_from_start := time_from_start pt |})
           (points jt_traj) |}.

(** What a cycle of the engine leaves: the engine, the shared state, the
    value passed to [publishWarning] if it was called, and the [bool] the
    calculation returns. *)
Record Outcome : Type := {
  engine : t;
  shared : jog_arm_shared R;
  warning : option bool;
  accepted : bool
}.

(** Modelled from the spec: the write of a cycle into the shared state
    (4.2 step 9): the trajectory, the staleness flag and [ok_to_publish]. *)
Definition writeTrajectory (sv : jog_arm_shared R) (stale : bool)
    (traj : JointTrajectory R) : jog_arm_shared R :=
  {| command_deltas := command_deltas sv;
     joint_command_deltas := joint_command_deltas sv;
     joints := joints sv;
     collision_velocity_scale := collision_velocity_scale sv;
     zero_cartesian_cmd_flag := zero_cartesian_cmd_flag sv;
     zero_joint_cmd_flag := zero_joint_cmd_flag sv;
     command_is_stale := stale;
     new_traj := traj;
     incoming_cmd_stamp := incoming_cmd_stamp sv;
     ok_to_publish := true |}.

(** Modelled from the spec: steps 7 and 8 common to both paths: filter the
    velocities, integrate, filter the positions when positions are
    published, compose the trajectory. *)
Definition filterAndCompose (jc : t) (joint_vel : list R) (at_time : Time R)
    : t * JointTrajectory R :=
  let p := parameters_ jc in
  let (vfs, vel) := filterEach (velocity_filters_ jc) joint_vel in
  let pos := integrate (publish_period p) (position (jt_state_ jc)) vel in
  let (pfs, pos') :=
    if publish_joint_positions p
    then filterEach (position_filters_ jc) pos
    else (position_filters_ jc, pos) in
  let js :=
    {| joints_header := joints_header (jt_state_ jc);
       name := name (jt_state_ jc);
       position := pos';
       velocity := vel;
       effort := effort (jt_state_ jc) |} in
  let jc' :=
    {| jt_state_ := js;
       velocity_filters_ := vfs;
       position_filters_ := pfs;
       parameters_ := p;
       joint_limits_ := joint_limits_ jc |} in
  (jc', composeOutgoingMessage jc' js at_time).

(** Modelled from the spec: the body of [cartesianJogCalcs] (4.2).  When
    the ScaleFactor is zero the halt trajectory is written and the warning
    raised; otherwise the scaled, clamped and filtered increment is written
    and the warning cleared. *)
Definition cartesianJogCalcs (jd : JacobianData) (at_time : Time R)
    (cmd : TwistStamped R) (jc : t) (sv : jog_arm_shared R) : Outcome :=
  let p := parameters_ jc in
  let v_target := scaleCartesianCommand p cmd in
  let delta_theta := mat_vec (pseudoinverse jd) v_target in
  let scale := ScaleFactor p jd sv in
  if Req_dec_T scale 0 then
    {| engine := jc;
       shared := writeTrajectory sv false
                   (halt jc (composeOutgoingMessage jc (jt_state_ jc) at_time));
       warning := Some true;
       accepted := true |}
  else
    let scaled := map (Rmult scale) delta_theta in
    let limited := enforceJointVelocityLimits jc scaled in
    let (jc', traj) := filterAndCompose jc limited at_time in
    {| engine := jc';
       shared := writeTrajectory sv false traj;
       warning := Some false;
       accepted := true |}.

(** Modelled from the spec: the value a joint command gives to the joint
    called [n], if it names it (section 3, joint variant). *)
Fixpoint lookupDelta (n : string) (names : list string) (ds : list R)
    : option R :=
  match names, ds with
  | m :: names', d :: ds' =>
      if String.eqb n m then Some d else lookupDelta n names' ds'
  | _, _ => None
  end.

(** Modelled from the spec: a joint command is well formed when it gives
    one value per name and names only joints of the group (section 7, e). *)
Definition wellFormed (group : list string) (cmd : JogJoint R) : bool :=
  Nat.eqb (List.length (jog_joint_names cmd)) (List.length (deltas cmd)) &&
  forallb (fun n => existsb (String.eqb n) group) (jog_joint_names cmd).

(** Modelled from the spec: the body of [scaleJointCommand] (4.3): the
    requested value of each named joint times the joint gain, zero for a
    joint that is not named. *)
Definition scaleJointCommand (jc : t) (command : JogJoint R) : list R :=
  map (fun n =>
         match lookupDelta n (jog_joint_names command) (deltas command) with
         | Some d => joint_scale (parameters_ jc) * d
         | None => 0
         end)
      (name (jt_state_ jc)).

(** Modelled from the spec: the body of [jointJogCalcs] (4.3): scale,
    clamp against the joint limits, filter, compose and write; a malformed
    command is rejected and leaves everything as it was. *)
Definition jointJogCalcs (at_time : Time R) (cmd : JogJoint R) (jc : t)
    (sv : jog_arm_shared R) : Outcome :=
  if wellFormed (name (jt_state_ jc)) cmd then
    let limited := enforceJointVelocityLimits jc (scaleJointCommand jc cmd) in
    let (jc', traj) := filterAndCompose jc limited at_time in
    {| engine := jc';
       shared := writeTrajectory sv false traj;
       warning := None;
       accepted := true |}
  else
    {| engine := jc; shared := sv; warning := None; accepted := false |}.

(** Modelled from the spec: the command-type selection of section 6. *)
Inductive CommandType : Type := CartesianCommand | JointCommand.

(** Modelled from the spec: one cycle of the calculation loop with the
    watchdog of 4.5.  When the last command is older than
    [incoming_command_timeout] the command is stale: the halt trajectory is
    written whatever was computed before and the filters are reset.
    Otherwise the latest command of the selected type is processed. *)
Definition controlCycle (now : R) (jd : JacobianData) (ct : CommandType)
    (jc : t) (sv : jog_arm_shared R) : Outcome :=
  let jc0 := updateJoints jc sv in
  let at_time := {| toSec := now |} in
  if Rlt_dec (incoming_command_timeout (parameters_ jc0))
             (now - toSec (incoming_cmd_stamp sv))
  then
    {| engine := resetVelocityFilters jc0;
       shared := writeTrajectory sv true
                   (halt jc0 (composeOutgoingMessage jc0 (jt_state_ jc0) at_time));
       warning := None;
       accepted := true |}
  else
    match ct with
    | CartesianCommand =>
        cartesianJogCalcs jd at_time (command_deltas sv) jc0 sv
    | JointCommand =>
        jointJogCalcs at_time (joint_command_deltas sv) jc0 sv
    end.

End JogCalcs.

(** * Example data

    A two-joint arm with the thresholds and periods of a usual
    configuration, for the instances of the properties below. *)

Module Examples.
Import JogCalcs.
Local Open Scope R_scope.
Local Open Scope string_scope.

Definition example_parameters : jog_arm_parameters R :=
  {| move_group_name := "manipulator";
     joint_topic := "joint_states";
     cartesian_command_in_topic := "delta_jog_cmds";
     command_frame := "base_link";
     command_out_topic := "joint_traj";
     planning_frame := "base_link";
     warning_topic := "warning";
     joint_command_in_topic := "joint_delta_jog_cmds";
     command_in_type := "unitless";
     command_out_type := "trajectory_msgs/JointTrajectory";
     linear_scale := 0.6;
     rotational_scale := 0.3;
     joint_scale := 0.01;
     lower_singularity_threshold := 0.1;
     hard_stop_singularity_threshold := 0.02;
     lower_collision_proximity_threshold := 0.1;
     hard_stop_collision_proximity_threshold := 0.005;
     low_pass_filter_coeff := 2;
     publish_period := 0.008;
     publish_delay := 0.005;
     incoming_command_timeout := 0.2;
     joint_limit_margin := 0.1;
     collision_check_rate := 5;
     gazebo := false;
     collision_check := true;
     publish_joint_positions := true;
     publish_joint_velocities := false;
     publish_joint_accelerations := false |}.

Definition example_joints : JointState R :=
  {| joints_header := Header_default;
     name := ["shoulder"; "elbow"];
     position := [0.5; -1];
     velocity := [0.2; 0];
     effort := [] |}.

Definition example_shared : jog_arm_shared R :=
  {| command_deltas := TwistStamped_default;
     joint_command_deltas := JogJoint_default;
     joints := example_joints;
     collision_velocity_scale := 1;
     zero_cartesian_cmd_flag := false;
     zero_joint_cmd_flag := true;
     command_is_stale := false;
     new_traj := JointTrajectory_default;
     incoming_cmd_stamp := {| toSec := 10 |};
     ok_to_publish := false |}.

Definition example_engine : JogCalcs.t :=
  {| jt_state_ := example_joints;
     velocity_filters_ := [LowPassFilter.new 2; LowPassFilter.new 2];
     position_filters_ := [LowPassFilter.new 2; LowPassFilter.new 2];
     parameters_ := example_parameters;
     joint_limits_ :=
       [{| min_position := -3; max_position := 3; max_velocity := 1 |};
        {| min_position := -2; max_position := 2; max_velocity := 1 |}] |}.

Definition example_jacobian (sigma : R) : JacobianData :=
  {| pseudoinverse := [[1; 0; 0; 0; 0; 0]; [0; 1; 0; 0; 0; 0]];
     smallest_singular_value := sigma;
     toward_singularity := true |}.

End Examples.

(** * Notions used to state further properties of the filter *)

Module FilterOps.
Import LowPassFilter.
Local Open Scope R_scope.

(** The filter with the coefficient of [f] whose five history slots are
    [a] times those of [f] plus [b] times those of [g]. *)
Definition blend (a b : R) (f g : t R) : t R :=
  {| filter_coeff_ := filter_coeff_ f;
     prev_msrmts_0 := a * prev_msrmts_0 f + b * prev_msrmts_0 g;
     prev_msrmts_1 := a * prev_msrmts_1 f + b * prev_msrmts_1 g;
     prev_msrmts_2 := a * prev_msrmts_2 f + b * prev_msrmts_2 g;
     prev_filtered_msrmts_0 :=
       a * prev_filtered_msrmts_0 f + b * prev_filtered_msrmts_0 g;
     prev_filtered_msrmts_1 :=
       a * prev_filtered_msrmts_1 f + b * prev_filtered_msrmts_1 g |}.

(** The same combination of two sequences of values, pair by pair. *)
Definition blend_values (a b : R) (ps : list (R * R)) : list R :=
  map (fun p => a * fst p + b * snd p) ps.

(** The filter [f] with [d] added to its five history slots. *)
Definition offset (d : R) (f : t R) : t R :=
  {| filter_coeff_ := filter_coeff_ f;
     prev_msrmts_0 := prev_msrmts_0 f + d;
     prev_msrmts_1 := prev_msrmts_1 f + d;
     prev_msrmts_2 := prev_msrmts_2 f + d;
     prev_filtered_msrmts_0 := prev_filtered_msrmts_0 f + d;
     prev_filtered_msrmts_1 := prev_filtered_msrmts_1 f + d |}.

(** A binary64 number that is an infinity or a NaN. *)
Definition not_finite (x : float) : Prop :=
  Prim2SF x = S754_nan \/ exists s : bool, Prim2SF x = S754_infinity s.

End FilterOps.

(** * Properties of the low-pass filter *)

Section FilterFacts.
Import LowPassFilter.
Local Open Scope R_scope.

(** The quadratic [1 + c^2 + 1.414 c] has no real root: it is
    [(c + 0.707)^2 + 0.500151]. *)
Lemma divisor_positive (c : R) : 0 < divisor c.
Proof.
  unfold divisor; simpl.
  pose proof (Rle_0_sqr (c + 0.707)) as Hsq.
  unfold Rsqr in Hsq. lra.
Qed.

Lemma divisor_nonzero (c : R) : divisor c <> 0.
Proof. pose proof (divisor_positive c); lra. Qed.

(** A history saturated with [v] is a fixed point of [filter] at input
    [v], in exact arithmetic. *)
Lemma filter_saturated (f : t R) (v : R) :
  filter (reset f v) v = (reset f v, v).
Proof.
  assert (Hy : snd (filter (reset f v) v) = v).
  { unfold filter; simpl.
    pose proof (divisor_nonzero (filter_coeff_ f)) as Hd.
    unfold divisor in *; simpl in *. field. exact Hd. }
  unfold filter, reset in *; simpl in *. rewrite Hy. reflexivity.
Qed.

Lemma run_saturated (f : t R) (v : R) (n : nat) :
  run (reset f v) (repeat v n) = (reset f v, repeat v n).
Proof.
  induction n as [|n IH]; [reflexivity|].
  cbn [repeat run]. rewrite filter_saturated, IH. reflexivity.
Qed.

End FilterFacts.

Section FilterClaims.
Import LowPassFilter.
Local Open Scope double_scope.

(** C2: [reset(v)] leaves [v] in the three raw slots and in the two
    filtered slots and keeps the coefficient; nothing of the history held
    before survives, so the object after [reset(v)] is the same for every
    prior history. *)
Theorem reset_overwrites_history :
  forall (F : Type) (D : Double F) (c m0 m1 m2 y0 y1 v : F),
    reset (mk c m0 m1 m2 y0 y1) v = mk c v v v v v /\
    history (reset (mk c m0 m1 m2 y0 y1) v) = [v; v; v; v; v].
Proof. intros; split; reflexivity. Qed.

(** C1, as the code has it: on every carrier, for every coefficient and
    every history, [filter] returns
    [k * (x[n-2] + 2 x[n-1] + x[n] - (c^2 - 1.414 c + 1) * y[n-2]
          - (-2 c^2 + 2) * y[n-1])] with [k = 1 / (1 + c^2 + 1.414 c)]:
    the factor [c^2 - 1.414 c + 1] multiplies the older filtered value and
    [-2 c^2 + 2] the most recently returned one.  The first part reads the
    samples from the slots of the object; the second takes three calls in
    a row, so that [x[n-1]], [x[n-2]] are the measurements passed before and
    [y[n-1]], [y[n-2]] the values those calls returned. *)
Theorem filter_recurrence :
  forall (F : Type) (D : Double F) (f : t F) (x_n2 x_n1 x_n : F),
    let c := filter_coeff_ f in
    let k := of_int 1 / (of_int 1 + c * c + lit_1_414 * c) in
    snd (filter f x_n) =
      k * (prev_msrmts_1 f + of_int 2 * prev_msrmts_0 f + x_n
           - (c * c - lit_1_414 * c + of_int 1) * prev_filtered_msrmts_1 f
           - (of_int (-2) * c * c + of_int 2) * prev_filtered_msrmts_0 f)
    /\
    let r2 := filter f x_n2 in
    let r1 := filter (fst r2) x_n1 in
    let y_n2 := snd r2 in
    let y_n1 := snd r1 in
    snd (filter (fst r1) x_n) =
      k * (x_n2 + of_int 2 * x_n1 + x_n
           - (c * c - lit_1_414 * c + of_int 1) * y_n2
           - (of_int (-2) * c * c + of_int 2) * y_n1).
Proof.
  intros F D f x_n2 x_n1 x_n c k. split.
  - reflexivity.
  - intros r2 r1 y_n2 y_n1.
    subst r1 r2 y_n2 y_n1 k c. destruct f as [c m0 m1 m2 y0 y1].
    reflexivity.
Qed.

(** C1 as worded fails: with coefficient 1, a new filter fed 1, 0, 0
    returns at the third call a value that is not the worded recurrence of
    the two values returned before, in exact arithmetic as in binary64. *)
Lemma filter_not_spec_4_1_recurrence :
  (let r2 := filter (new 1%R) 1%R in
   let r1 := filter (fst r2) 0%R in
   snd (filter (fst r1) 0%R) <>
   spec_4_1_recurrence 1%R 0%R 0%R 1%R (snd r1) (snd r2))
  /\
  (let r2 := filter (new 1%float) 1%float in
   let r1 := filter (fst r2) 0%float in
   snd (filter (fst r1) 0%float) <>
   spec_4_1_recurrence 1%float 0%float 0%float 1%float (snd r1) (snd r2)).
Proof.
  split.
  - cbv [filter new spec_4_1_recurrence divisor fst snd
         filter_coeff_ prev_msrmts_0 prev_msrmts_1 prev_msrmts_2
         prev_filtered_msrmts_0 prev_filtered_msrmts_1
         dadd dsub dmul ddiv of_int lit_1_414 Double_R].
    intros Heq. lra.
  - cbv zeta. intros Heq.
    apply (f_equal (fun y => PrimFloat.eqb y
             (snd (filter (fst (filter (fst (filter (new 1%float) 1%float))
                                       0%float)) 0%float)))) in Heq.
    vm_compute in Heq. discriminate Heq.
Qed.

(** C3, amended: in exact arithmetic, for every coefficient, the three
    calls [filter(5.0)] after [reset(5.0)] return 5 each; in binary64 they
    return exactly [5.0] with the default coefficient [10.] of the class. *)
Theorem steady_state_after_reset :
  (forall f : t R,
     snd (run (reset f 5%R) [5%R; 5%R; 5%R]) = [5%R; 5%R; 5%R]) /\
  (forall m0 m1 m2 y0 y1 : float,
     snd (run (reset (mk 10%float m0 m1 m2 y0 y1) 5%float)
              [5%float; 5%float; 5%float])
     = [5%float; 5%float; 5%float]).
Proof.
  split.
  - intros f. change [5%R; 5%R; 5%R] with (repeat 5%R 3).
    rewrite run_saturated. reflexivity.
  - intros m0 m1 m2 y0 y1. vm_compute. reflexivity.
Qed.

(** C3 as worded fails in binary64: with coefficient 1 the first call
    [filter(5.0)] after [reset(5.0)] returns [5.000000000000001]. *)
Lemma steady_state_binary64_rounds :
  snd (run (reset (new 1%float) 5%float) [5%float; 5%float; 5%float])
  <> [5%float; 5%float; 5%float].
Proof.
  intros Heq.
  apply (f_equal (fun ys => match ys with
                            | y :: _ => PrimFloat.eqb y 5%float
                            | [] => true
                            end)) in Heq.
  vm_compute in Heq. discriminate Heq.
Qed.

(** C4: for every real coefficient the divisor [1 + c^2 + 1.414 c] is
    positive, hence nonzero, so the value [filter] returns is the unique
    solution [y] of [y * divisor = numerator]; [filter] and [reset] are
    total functions, and the value returned is a function of the
    coefficient, the stored history and the input alone. *)
Theorem filter_total_and_pure :
  (forall c : R, (0 < divisor c)%R /\ divisor c <> 0%R) /\
  (forall (f : t R) (x : R),
     let c := filter_coeff_ f in
     (snd (filter f x) * divisor c =
      prev_msrmts_1 f + 2 * prev_msrmts_0 f + x
      - (c * c - 1.414 * c + 1) * prev_filtered_msrmts_1 f
      - (-2 * c * c + 2) * prev_filtered_msrmts_0 f)%R) /\
  (exists g : R -> list R -> R -> R,
     forall (f : t R) (x : R),
       snd (filter f x) = g (filter_coeff_ f) (history f) x) /\
  (forall (f : t R) (x v : R),
     (exists f' y, filter f x = (f', y)) /\ (exists f', reset f v = f')).
Proof.
  repeat split.
  - apply divisor_positive.
  - apply divisor_nonzero.
  - intros f x c. pose proof (divisor_nonzero c) as Hd.
    unfold filter; simpl. fold c.
    unfold divisor in *; simpl in *. field. exact Hd.
  - exists (fun c h x =>
              match h with
              | [m0; m1; m2; y0; y1] => snd (filter (mk c m0 m1 m2 y0 y1) x)
              | _ => 0%R
              end).
    intros [c m0 m1 m2 y0 y1] x. reflexivity.
  - eexists; eexists; reflexivity.
  - eexists; reflexivity.
Qed.

End FilterClaims.

(** * Properties of the jog engine *)

(** Case analysis on a comparison of the goal whose two sides hold no
    further comparison, closing the cases that arithmetic decides. *)
Ltac case_Rle :=
  match goal with
  | |- context [Rle_dec ?a ?b] =>
      lazymatch a with
      | context [Rle_dec _ _] => fail
      | _ =>
          lazymatch b with
          | context [Rle_dec _ _] => fail
          | _ => destruct (Rle_dec a b); cbv iota; try lra
          end
      end
  end.

Section EngineFacts.
Import JogCalcs.
Local Open Scope R_scope.

Lemma two_threshold_scale_bounds (lower hard_stop proximity : R) :
  0 <= two_threshold_scale lower hard_stop proximity <= 1.
Proof.
  unfold two_threshold_scale.
  destruct (Rle_dec proximity hard_stop) as [Hh|Hh]; [lra|].
  destruct (Rle_dec lower proximity) as [Hl|Hl]; [lra|].
  assert (Hgap : 0 < lower - hard_stop) by lra.
  split.
  - apply Rlt_le, Rdiv_lt_0_compat; lra.
  - apply Rmult_le_reg_r with (lower - hard_stop); [exact Hgap|].
    unfold Rdiv. rewrite Rmult_assoc, Rinv_l by lra. lra.
Qed.

Lemma two_threshold_scale_hard_stop (lower hard_stop proximity : R) :
  proximity <= hard_stop -> two_threshold_scale lower hard_stop proximity = 0.
Proof.
  intros Hle. unfold two_threshold_scale.
  destruct (Rle_dec proximity hard_stop); [reflexivity|contradiction].
Qed.

Lemma clamp01_bounds (s : R) : 0 <= clamp01 s <= 1.
Proof.
  unfold clamp01, Rmax, Rmin.
  destruct (Rle_dec 1 s); destruct (Rle_dec 0 _); lra.
Qed.

Lemma clamp01_zero : clamp01 0 = 0.
Proof.
  unfold clamp01, Rmax, Rmin.
  destruct (Rle_dec 1 0); destruct (Rle_dec 0 _); lra.
Qed.

Lemma decelerateForSingularity_bounds (p : jog_arm_parameters R)
    (jd : JacobianData) :
  0 <= decelerateForSingularity p jd <= 1.
Proof.
  unfold decelerateForSingularity.
  destruct (Rle_dec _ _); [lra|].
  destruct (toward_singularity jd); [apply two_threshold_scale_bounds|lra].
Qed.

Lemma decelerateForSingularity_hard_stop (p : jog_arm_parameters R)
    (jd : JacobianData) :
  smallest_singular_value jd <= hard_stop_singularity_threshold p ->
  decelerateForSingularity p jd = 0.
Proof.
  intros Hle. unfold decelerateForSingularity.
  destruct (Rle_dec _ _); [reflexivity|contradiction].
Qed.

Lemma ScaleFactor_singularity_stop (p : jog_arm_parameters R)
    (jd : JacobianData) (sv : jog_arm_shared R) :
  smallest_singular_value jd <= hard_stop_singularity_threshold p ->
  ScaleFactor p jd sv = 0.
Proof.
  intros Hle. unfold ScaleFactor.
  rewrite decelerateForSingularity_hard_stop by exact Hle.
  rewrite Rmult_0_l. apply clamp01_zero.
Qed.

Lemma ScaleFactor_collision_stop (p : jog_arm_parameters R)
    (jd : JacobianData) (sv : jog_arm_shared R) :
  collision_velocity_scale sv = 0 -> ScaleFactor p jd sv = 0.
Proof.
  intros Hz. unfold ScaleFactor. rewrite Hz, Rmult_0_r. apply clamp01_zero.
Qed.

(** The three ways a clamp [max lo (min hi x)] comes out. *)
Lemma clamp_cases (lo hi x : R) :
  (Rmax lo (Rmin hi x) = lo /\ (hi <= lo \/ x <= lo)) \/
  (Rmax lo (Rmin hi x) = hi /\ lo <= hi <= x) \/
  (Rmax lo (Rmin hi x) = x /\ lo <= x <= hi).
Proof. unfold Rmax, Rmin. repeat case_Rle. Qed.

Ltac clamp_case H :=
  destruct H as [[? [?|?]]|[[? ?]|[? ?]]].

Lemma clampJoint_idempotent (margin period : R) (l : JointLimit) (q v : R) :
  clampJoint margin period l q (clampJoint margin period l q v)
  = clampJoint margin period l q v.
Proof.
  unfold clampJoint.
  set (lo1 := - max_velocity l). set (hi1 := max_velocity l).
  set (lo2 := (min_position l + margin - q) / period).
  set (hi2 := (max_position l - margin - q) / period).
  clearbody lo1 hi1 lo2 hi2. cbv zeta.
  pose proof (clamp_cases lo1 hi1 v) as H1.
  set (u := Rmax lo1 (Rmin hi1 v)) in *. clearbody u.
  pose proof (clamp_cases lo2 hi2 u) as H2.
  set (y := Rmax lo2 (Rmin hi2 u)) in *. clearbody y.
  pose proof (clamp_cases lo1 hi1 y) as H3.
  set (z := Rmax lo1 (Rmin hi1 y)) in *. clearbody z.
  pose proof (clamp_cases lo2 hi2 z) as H4.
  set (w := Rmax lo2 (Rmin hi2 z)) in *. clearbody w.
  clamp_case H1; clamp_case H2; clamp_case H3; try lra;
    clamp_case H4; lra.
Qed.

Lemma clampJoints_idempotent (margin period : R) (ls : list JointLimit)
    (qs vs : list R) :
  clampJoints margin period ls qs (clampJoints margin period ls qs vs)
  = clampJoints margin period ls qs vs.
Proof.
  revert ls qs.
  induction vs as [|v vs IH]; intros ls qs; [reflexivity|].
  destruct ls as [|l ls]; [reflexivity|].
  destruct qs as [|q qs]; [reflexivity|].
  cbn [clampJoints]. rewrite clampJoint_idempotent, IH. reflexivity.
Qed.

Lemma reset_saturated (f : LowPassFilter.t R) (v : R) :
  exists w, LowPassFilter.history (LowPassFilter.reset f v) = [w; w; w; w; w].
Proof. exists v. reflexivity. Qed.

Lemma resetEach_saturated (fs : list (LowPassFilter.t R)) (xs : list R) :
  Forall (fun f => exists w, LowPassFilter.history f = [w; w; w; w; w])
         (resetEach fs xs).
Proof.
  revert xs. induction fs as [|f fs IH]; intros xs.
  - destruct xs; constructor.
  - destruct xs as [|x xs]; cbn [resetEach].
    + apply Forall_map, Forall_forall. intros g _. apply reset_saturated.
    + constructor; [apply reset_saturated|apply IH].
Qed.

Lemma resetEach_length (fs : list (LowPassFilter.t R)) (xs : list R) :
  List.length (resetEach fs xs) = List.length fs.
Proof.
  revert xs. induction fs as [|f fs IH]; intros xs.
  - destruct xs; reflexivity.
  - destruct xs as [|x xs]; cbn [resetEach].
    + apply length_map.
    + cbn [List.length]. now rewrite IH.
Qed.

Lemma zeros_all_zero (qs : list R) :
  Forall (fun v => v = 0) (map (fun _ : R => 0) qs).
Proof. apply Forall_map, Forall_forall. intros x _. reflexivity. Qed.

End EngineFacts.

Section EngineClaims.
Import JogCalcs Examples.
Local Open Scope R_scope.

(** C5: the singularity scale, the collision scale and the combined
    ScaleFactor are in [0, 1]; a smallest singular value at or below
    [hard_stop_singularity_threshold] gives a ScaleFactor of exactly 0, and
    so does a distance to collision at or below
    [hard_stop_collision_proximity_threshold] once the collision thread has
    written its scale. *)
Theorem scale_factor_in_unit_interval :
  forall (p : jog_arm_parameters R) (jd : JacobianData)
         (sv : jog_arm_shared R) (min_distance : R),
    0 <= decelerateForSingularity p jd <= 1 /\
    0 <= collisionVelocityScale p min_distance <= 1 /\
    0 <= ScaleFactor p jd sv <= 1 /\
    (smallest_singular_value jd <= hard_stop_singularity_threshold p ->
     decelerateForSingularity p jd = 0 /\ ScaleFactor p jd sv = 0) /\
    (min_distance <= hard_stop_collision_proximity_threshold p ->
     collisionVelocityScale p min_distance = 0 /\
     ScaleFactor p jd (collisionCheckCycle p min_distance sv) = 0).
Proof.
  intros p jd sv min_distance.
  split; [apply decelerateForSingularity_bounds|].
  split; [apply two_threshold_scale_bounds|].
  split; [apply clamp01_bounds|].
  split.
  - intros Hle. split.
    + apply decelerateForSingularity_hard_stop, Hle.
    + apply ScaleFactor_singularity_stop, Hle.
  - intros Hle.
    assert (Hc : collisionVelocityScale p min_distance = 0)
      by (apply two_threshold_scale_hard_stop, Hle).
    split; [exact Hc|].
    apply ScaleFactor_collision_stop. simpl. exact Hc.
Qed.

(** C5 on the example arm: a smallest singular value at the singularity
    hard stop, and a distance to collision at the collision hard stop. *)
Lemma scale_factor_in_unit_interval_witness :
  (smallest_singular_value (example_jacobian 0.02)
     <= hard_stop_singularity_threshold example_parameters /\
   ScaleFactor example_parameters (example_jacobian 0.02) example_shared = 0)
  /\
  (0.005 <= hard_stop_collision_proximity_threshold example_parameters /\
   ScaleFactor example_parameters (example_jacobian 0.5)
     (collisionCheckCycle example_parameters 0.005 example_shared) = 0).
Proof.
  assert (Hs : smallest_singular_value (example_jacobian 0.02)
                 <= hard_stop_singularity_threshold example_parameters)
    by (simpl; lra).
  assert (Hc : 0.005
                 <= hard_stop_collision_proximity_threshold example_parameters)
    by (simpl; lra).
  split.
  - split; [exact Hs|].
    apply (scale_factor_in_unit_interval example_parameters
             (example_jacobian 0.02) example_shared 0.005), Hs.
  - split; [exact Hc|].
    apply (scale_factor_in_unit_interval example_parameters
             (example_jacobian 0.5) example_shared 0.005), Hc.
Defined.

(** C6: in a cycle where the last command is older than
    [incoming_command_timeout], [command_is_stale] is set; the trajectory
    written is one point holding the last known positions with every
    velocity 0, made of the time, the parameters and the last joint state
    alone, whatever command or trajectory the shared state held; and every
    velocity and position filter of the engine comes out with a reset
    history. *)
Theorem stale_command_halts :
  forall (now : R) (jd : JacobianData) (ct : CommandType) (jc : JogCalcs.t)
         (sv : jog_arm_shared R),
    incoming_command_timeout (parameters_ jc)
      < now - toSec (incoming_cmd_stamp sv) ->
    let out := controlCycle now jd ct jc sv in
    command_is_stale (shared out) = true /\
    new_traj (shared out) =
      {| traj_header :=
           {| stamp := {| toSec := now |};
              frame_id := planning_frame (parameters_ jc) |};
         joint_names := name (joints sv);
         points :=
           [{| positions := position (joints sv);
               velocities := map (fun _ => 0) (position (joints sv));
               accelerations := [];
               time_from_start := publish_period (parameters_ jc) |}] |} /\
    Forall (fun pt => positions pt = position (joints sv) /\
                      Forall (fun v => v = 0) (velocities pt))
           (points (new_traj (shared out))) /\
    Forall (fun f => exists w, LowPassFilter.history f = [w; w; w; w; w])
           (velocity_filters_ (engine out) ++ position_filters_ (engine out))
    /\
    List.length (velocity_filters_ (engine out))
      = List.length (velocity_filters_ jc) /\
    List.length (position_filters_ (engine out))
      = List.length (position_filters_ jc).
Proof.
  intros now jd ct jc sv Hstale out. subst out. unfold controlCycle.
  cbn [updateJoints parameters_].
  destruct (Rlt_dec _ _) as [_|Hn]; [|contradiction].
  cbn [shared engine writeTrajectory command_is_stale new_traj halt
       composeOutgoingMessage points map jt_state_ position
       resetVelocityFilters velocity_filters_ position_filters_
       traj_header joint_names accelerations time_from_start parameters_].
  split; [reflexivity|]. split; [reflexivity|]. split.
  - constructor; [|constructor]. cbn [positions velocities].
    split; [reflexivity|apply zeros_all_zero].
  - split; [|split].
    + apply Forall_app. split.
      * apply Forall_map, Forall_forall. intros f _. apply reset_saturated.
      * apply resetEach_saturated.
    + apply length_map.
    + apply resetEach_length.
Qed.

(** C6 on the example arm: the last command stamped at 10 s, the cycle
    at 11 s, the timeout 0.2 s. *)
Lemma stale_command_halts_witness :
  incoming_command_timeout (parameters_ example_engine)
    < 11 - toSec (incoming_cmd_stamp example_shared) /\
  command_is_stale
    (shared (controlCycle 11 (example_jacobian 0.5) CartesianCommand
               example_engine example_shared)) = true.
Proof.
  assert (Hstale : incoming_command_timeout (parameters_ example_engine)
                     < 11 - toSec (incoming_cmd_stamp example_shared))
    by (simpl; lra).
  split; [exact Hstale|].
  apply (stale_command_halts 11 (example_jacobian 0.5) CartesianCommand
           example_engine example_shared Hstale).
Defined.

(** C7: in the Cartesian path, when the smallest singular value is below
    [hard_stop_singularity_threshold], or the collision scale of the shared
    state is 0, the trajectory written is one point at the current
    positions with every velocity 0 and the warning is raised; when the
    ScaleFactor is not 0 the warning is cleared. *)
Theorem hard_stop_halts_and_warns :
  forall (jd : JacobianData) (at_time : Time R) (cmd : TwistStamped R)
         (jc : JogCalcs.t) (sv : jog_arm_shared R),
    let out := cartesianJogCalcs jd at_time cmd jc sv in
    (smallest_singular_value jd
       < hard_stop_singularity_threshold (parameters_ jc) \/
     collision_velocity_scale sv = 0 ->
     warning out = Some true /\
     exists pt,
       points (new_traj (shared out)) = [pt] /\
       positions pt = position (jt_state_ jc) /\
       velocities pt = map (fun _ => 0) (position (jt_state_ jc)) /\
       Forall (fun v => v = 0) (velocities pt)) /\
    (ScaleFactor (parameters_ jc) jd sv <> 0 -> warning out = Some false).
Proof.
  intros jd at_time cmd jc sv out. subst out. unfold cartesianJogCalcs.
  split.
  - intros Hstop.
    assert (Hz : ScaleFactor (parameters_ jc) jd sv = 0).
    { destruct Hstop as [Hs|Hc].
      - apply ScaleFactor_singularity_stop. lra.
      - apply ScaleFactor_collision_stop, Hc. }
    destruct (Req_dec_T _ _) as [_|Hn]; [|contradiction].
    split; [reflexivity|].
    eexists. split; [reflexivity|]. cbn [positions velocities].
    split; [reflexivity|]. split; [reflexivity|]. apply zeros_all_zero.
  - intros Hnz.
    destruct (Req_dec_T _ _) as [Hz|_]; [contradiction|].
    destruct (filterAndCompose _ _ _). reflexivity.
Qed.

(** Away from both hard stops the example arm runs at full speed. *)
Lemma example_scale_factor :
  ScaleFactor example_parameters (example_jacobian 0.5) example_shared = 1.
Proof.
  unfold ScaleFactor, decelerateForSingularity, two_threshold_scale,
    clamp01, Rmax, Rmin. simpl. repeat case_Rle.
Qed.

(** C7 on the example arm: a smallest singular value of 0.01 under the
    hard stop of 0.02, and one of 0.5 with no collision in sight. *)
Lemma hard_stop_halts_and_warns_witness :
  (smallest_singular_value (example_jacobian 0.01)
     < hard_stop_singularity_threshold (parameters_ example_engine) /\
   warning (cartesianJogCalcs (example_jacobian 0.01) {| toSec := 10 |}
              TwistStamped_default example_engine example_shared)
     = Some true) /\
  (ScaleFactor (parameters_ example_engine) (example_jacobian 0.5)
     example_shared <> 0 /\
   warning (cartesianJogCalcs (example_jacobian 0.5) {| toSec := 10 |}
              TwistStamped_default example_engine example_shared)
     = Some false).
Proof.
  assert (Hs : smallest_singular_value (example_jacobian 0.01)
                 < hard_stop_singularity_threshold (parameters_ example_engine))
    by (simpl; lra).
  assert (Hn : ScaleFactor (parameters_ example_engine) (example_jacobian 0.5)
                 example_shared <> 0).
  { change (parameters_ example_engine) with example_parameters.
    rewrite example_scale_factor. lra. }
  split.
  - split; [exact Hs|].
    apply (hard_stop_halts_and_warns (example_jacobian 0.01)
             {| toSec := 10 |} TwistStamped_default
             example_engine example_shared).
    left. exact Hs.
  - split; [exact Hn|].
    apply (hard_stop_halts_and_warns (example_jacobian 0.5)
             {| toSec := 10 |} TwistStamped_default
             example_engine example_shared).
    exact Hn.
Defined.

(** C8: the joint path reads neither the collision scale nor what the
    robot-model service says of the Jacobian: a cycle on a joint command
    leaves the same trajectory, the same engine and the same verdict when
    the collision scale of the shared state and the Jacobian data are
    replaced by any others. *)
Theorem joint_path_ignores_scaling :
  forall (now s' : R) (jd jd' : JacobianData) (jc : JogCalcs.t)
         (sv : jog_arm_shared R),
    let out := controlCycle now jd JointCommand jc sv in
    let out' := controlCycle now jd' JointCommand jc
                  (set_collision_velocity_scale sv s') in
    new_traj (shared out') = new_traj (shared out) /\
    engine out' = engine out /\
    accepted out' = accepted out /\
    warning out' = warning out /\
    forall (at_time : Time R) (cmd : JogJoint R),
      new_traj (shared (jointJogCalcs at_time cmd jc
                          (set_collision_velocity_scale sv s')))
      = new_traj (shared (jointJogCalcs at_time cmd jc sv)).
Proof.
  intros now s' jd jd' jc sv out out'. subst out out'.
  unfold controlCycle, jointJogCalcs.
  cbn [set_collision_velocity_scale incoming_cmd_stamp joint_command_deltas
       updateJoints joints parameters_ jt_state_].
  repeat split.
  - destruct (Rlt_dec _ _); [reflexivity|].
    destruct (wellFormed _ _); [|reflexivity].
    destruct (filterAndCompose _ _ _). reflexivity.
  - destruct (Rlt_dec _ _); [reflexivity|].
    destruct (wellFormed _ _); [|reflexivity].
    destruct (filterAndCompose _ _ _). reflexivity.
  - destruct (Rlt_dec _ _); [reflexivity|].
    destruct (wellFormed _ _); [|reflexivity].
    destruct (filterAndCompose _ _ _). reflexivity.
  - destruct (Rlt_dec _ _); [reflexivity|].
    destruct (wellFormed _ _); [|reflexivity].
    destruct (filterAndCompose _ _ _). reflexivity.
  - intros at_time cmd.
    destruct (wellFormed _ _); [|reflexivity].
    destruct (filterAndCompose _ _ _). reflexivity.
Qed.

(** C9: clamping an increment vector against the joint limits a second
    time changes nothing. *)
Theorem enforceJointVelocityLimits_idempotent :
  forall (jc : JogCalcs.t) (calculated_joint_vel : list R),
    enforceJointVelocityLimits jc
      (enforceJointVelocityLimits jc calculated_joint_vel)
    = enforceJointVelocityLimits jc calculated_joint_vel.
Proof.
  intros jc v. unfold enforceJointVelocityLimits.
  apply clampJoints_idempotent.
Qed.

End EngineClaims.

(** * The shared state *)

(** C10: before any message arrives the shared state has
    [collision_velocity_scale = 1], both zero-command flags set,
    [command_is_stale] and [ok_to_publish] clear, and the time 0 as the
    stamp of the incoming command; this on every carrier, and in binary64
    the scale is the number [1.0] and the stamp [0.0]. *)
Theorem jog_arm_shared_defaults :
  (forall (F : Type) (D : Double F),
     collision_velocity_scale jog_arm_shared_init = of_int 1 /\
     zero_cartesian_cmd_flag jog_arm_shared_init = true /\
     zero_joint_cmd_flag jog_arm_shared_init = true /\
     command_is_stale jog_arm_shared_init = false /\
     ok_to_publish jog_arm_shared_init = false /\
     toSec (incoming_cmd_stamp jog_arm_shared_init) = of_int 0) /\
  collision_velocity_scale (F := float) jog_arm_shared_init = 1%float /\
  toSec (F := float) (incoming_cmd_stamp jog_arm_shared_init) = 0%float /\
  collision_velocity_scale (F := R) jog_arm_shared_init = 1%R /\
  toSec (F := R) (incoming_cmd_stamp jog_arm_shared_init) = 0%R.
Proof.
  split; [intros F D; repeat split|].
  repeat split.
Qed.

(** * Further properties of the low-pass filter *)

Section FilterAlgebra.
Import LowPassFilter FilterOps.
Local Open Scope R_scope.

Lemma filter_blend (a b : R) (f g : t R) (x y : R) :
  filter_coeff_ g = filter_coeff_ f ->
  filter (blend a b f g) (a * x + b * y)
  = (blend a b (fst (filter f x)) (fst (filter g y)),
     a * snd (filter f x) + b * snd (filter g y)).
Proof.
  intros Hc.
  assert (Hy : snd (filter (blend a b f g) (a * x + b * y))
               = a * snd (filter f x) + b * snd (filter g y)).
  { unfold filter, blend; simpl. rewrite Hc.
    pose proof (divisor_nonzero (filter_coeff_ f)) as Hd.
    unfold divisor in *; simpl in *. field. exact Hd. }
  unfold filter, blend in *; simpl in *. rewrite Hy. reflexivity.
Qed.

Lemma filter_keeps_coeff {F : Type} `{Double F} (f : t F) (x : F) :
  filter_coeff_ (fst (filter f x)) = filter_coeff_ f.
Proof. reflexivity. Qed.

Lemma run_keeps_coeff {F : Type} `{Double F} (xs : list F) (f : t F) :
  filter_coeff_ (fst (run f xs)) = filter_coeff_ f.
Proof.
  revert f. induction xs as [|x xs IH]; intros f; [reflexivity|].
  cbn [run]. destruct (filter f x) as [f1 y] eqn:Hf.
  specialize (IH f1). destruct (run f1 xs) as [f2 ys]. cbn [fst] in *.
  rewrite IH. change f1 with (fst (f1, y)). rewrite <- Hf. reflexivity.
Qed.

Lemma run_cons {F : Type} `{Double F} (f : t F) (x : F) (xs : list F) :
  run f (x :: xs)
  = (fst (run (fst (filter f x)) xs),
     snd (filter f x) :: snd (run (fst (filter f x)) xs)).
Proof.
  cbn [run]. destruct (filter f x) as [f1 y]. cbn [fst snd].
  destruct (run f1 xs). reflexivity.
Qed.

Lemma run_app {F : Type} `{Double F} (xs ys : list F) (f : t F) :
  run f (xs ++ ys)
  = (fst (run (fst (run f xs)) ys),
     snd (run f xs) ++ snd (run (fst (run f xs)) ys)).
Proof.
  revert f. induction xs as [|x xs IH]; intros f.
  - cbn [app run fst snd]. destruct (run f ys). reflexivity.
  - cbn [app]. rewrite !run_cons, IH. reflexivity.
Qed.

Lemma filter_offset (d : R) (f : t R) (x : R) :
  filter (offset d f) (x + d)
  = (offset d (fst (filter f x)), snd (filter f x) + d).
Proof.
  assert (Hy : snd (filter (offset d f) (x + d)) = snd (filter f x) + d).
  { unfold filter, offset; simpl.
    pose proof (divisor_nonzero (filter_coeff_ f)) as Hd.
    unfold divisor in *; simpl in *. field. exact Hd. }
  unfold filter, offset in *; simpl in *. rewrite Hy. reflexivity.
Qed.

(** X1: in exact arithmetic, for every coefficient, every value [v] and
    every number of calls, a filter reset to [v] and fed [v] returns [v]
    at each call and stays as [reset] left it. *)
Theorem constant_signal_passes_unchanged :
  forall (f : t R) (v : R) (n : nat),
    run (reset f v) (repeat v n) = (reset f v, repeat v n).
Proof. intros f v n. apply run_saturated. Qed.

(** X2: in exact arithmetic the filter is linear: for two filters with
    the same coefficient, the combination [a f + b g] of their histories
    fed the same combination of their measurements returns that
    combination of their outputs, and ends in that combination of their
    final histories. *)
Theorem filter_superposition :
  forall (a b : R) (ps : list (R * R)) (f g : t R),
    filter_coeff_ g = filter_coeff_ f ->
    run (blend a b f g) (blend_values a b ps)
    = (blend a b (fst (run f (map fst ps))) (fst (run g (map snd ps))),
       blend_values a b
         (combine (snd (run f (map fst ps))) (snd (run g (map snd ps))))).
Proof.
  intros a b ps. induction ps as [|[x y] ps IH]; intros f g Hc.
  - reflexivity.
  - cbn [blend_values map fst snd]. rewrite !run_cons.
    rewrite filter_blend by exact Hc. cbn [fst snd combine map].
    fold (blend_values a b ps).
    rewrite IH by (rewrite !filter_keeps_coeff; exact Hc).
    reflexivity.
Qed.

Lemma filter_superposition_witness :
  filter_coeff_ (new 2) = filter_coeff_ (reset (new 2) 1) /\
  run (blend 3 4 (reset (new 2) 1) (new 2)) (blend_values 3 4 [(1, 0)])
  = (blend 3 4 (fst (run (reset (new 2) 1) (map fst [(1, 0)])))
       (fst (run (new 2) (map snd [(1, 0)]))),
     blend_values 3 4
       (combine (snd (run (reset (new 2) 1) (map fst [(1, 0)])))
                (snd (run (new 2) (map snd [(1, 0)]))))).
Proof.
  split; [reflexivity|].
  apply (filter_superposition 3 4 [(1, 0)] (reset (new 2) 1) (new 2)).
  reflexivity.
Defined.

(** X3: in exact arithmetic the filter has unit gain on a constant
    offset: adding [d] to the whole history and to every measurement adds
    [d] to every value returned and to the final history. *)
Theorem filter_offset_equivariant :
  forall (d : R) (xs : list R) (f : t R),
    run (offset d f) (map (fun x => x + d) xs)
    = (offset d (fst (run f xs)), map (fun y => y + d) (snd (run f xs))).
Proof.
  intros d xs. induction xs as [|x xs IH]; intros f; [reflexivity|].
  cbn [map]. rewrite !run_cons, filter_offset. cbn [fst snd map].
  rewrite IH. reflexivity.
Qed.

(** X4: on every carrier, no call of [filter] changes the coefficient,
    and [reset(v)] wipes out whatever the calls before it left: after any
    measurements the reset filter is the one a reset of the original gives. *)
Theorem reset_forgets_past_calls :
  forall (F : Type) (D : Double F) (f : t F) (xs : list F) (v : F),
    filter_coeff_ (fst (run f xs)) = filter_coeff_ f /\
    reset (fst (run f xs)) v = reset f v.
Proof.
  intros F D f xs v.
  pose proof (run_keeps_coeff xs f) as Hc. split; [exact Hc|].
  unfold reset. rewrite Hc. reflexivity.
Qed.

(** X5: on every carrier, what [prev_msrmts_[2]] holds before a call is
    never read: two filters that differ in that slot alone return the same
    values for the same measurements and end in the same state once one
    measurement has been taken. *)
Theorem oldest_raw_slot_is_dead :
  forall (F : Type) (D : Double F) (c m0 m1 m2 m2' y0 y1 x : F)
         (xs : list F),
    run (mk c m0 m1 m2 y0 y1) (x :: xs)
    = run (mk c m0 m1 m2' y0 y1) (x :: xs).
Proof. intros. rewrite !run_cons. reflexivity. Qed.

(** X8: the constructor leaves the filter at rest: its history is that of
    [reset(0)], and in exact arithmetic a new filter fed zeros returns
    zeros and does not move, for every coefficient. *)
Theorem new_filter_at_rest :
  (forall (F : Type) (D : Double F) (c : F),
     new c = reset (new c) (of_int 0) /\ filter_coeff_ (new c) = c) /\
  (forall (c : R) (n : nat),
     run (new c) (repeat 0 n) = (new c, repeat 0 n)).
Proof.
  split.
  - intros F D c. split; reflexivity.
  - intros c n. change (new c) with (reset (new c) 0).
    apply run_saturated.
Qed.

(** X9: in exact arithmetic with a coefficient that is not negative, a
    larger new measurement gives a larger returned value, and the returned
    value moves by no more than the measurement does. *)
Theorem filter_attenuates_new_measurement :
  forall (f : t R) (x x' : R),
    0 <= filter_coeff_ f -> x <= x' ->
    0 <= snd (filter f x') - snd (filter f x) <= x' - x.
Proof.
  intros f x x' Hc Hx.
  pose proof (divisor_positive (filter_coeff_ f)) as Hd.
  assert (Hone : 1 <= divisor (filter_coeff_ f)).
  { unfold divisor; simpl.
    pose proof (Rle_0_sqr (filter_coeff_ f)) as Hs. unfold Rsqr in Hs. lra. }
  assert (Hdiff : snd (filter f x') - snd (filter f x)
                  = (x' - x) / divisor (filter_coeff_ f)).
  { unfold filter; simpl. unfold divisor in *; simpl in *. field. lra. }
  rewrite Hdiff. split.
  - apply Rmult_le_pos; [lra|]. apply Rlt_le, Rinv_0_lt_compat, Hd.
  - apply Rmult_le_reg_r with (divisor (filter_coeff_ f)); [exact Hd|].
    unfold Rdiv. rewrite Rmult_assoc, Rinv_l by lra. nra.
Qed.

Lemma filter_attenuates_new_measurement_witness :
  0 <= filter_coeff_ (new 2) /\ 1 <= 3 /\
  0 <= snd (filter (new 2) 3) - snd (filter (new 2) 1) <= 3 - 1.
Proof.
  assert (Hc : 0 <= filter_coeff_ (new 2)) by (simpl; lra).
  assert (Hx : 1 <= 3) by lra.
  split; [exact Hc|]. split; [exact Hx|].
  apply (filter_attenuates_new_measurement (new 2) 1 3 Hc Hx).
Defined.

End FilterAlgebra.

(** * The filter in binary64: NaN and overflow *)

Section FilterBinary64.
Import LowPassFilter FilterOps.
Local Open Scope float_scope.

Lemma add_nan_r (x : float) : x + nan = nan.
Proof.
  apply Prim2SF_inj. rewrite add_spec.
  change (Prim2SF nan) with S754_nan.
  unfold SF64add, SFadd. destruct (Prim2SF x); reflexivity.
Qed.

Lemma sub_nan_l (y : float) : nan - y = nan.
Proof. apply Prim2SF_inj. rewrite sub_spec. reflexivity. Qed.

Lemma sub_nan_r (x : float) : x - nan = nan.
Proof.
  apply Prim2SF_inj. rewrite sub_spec.
  change (Prim2SF nan) with S754_nan.
  unfold SF64sub, SFsub. destruct (Prim2SF x); reflexivity.
Qed.

Lemma mul_nan_r (x : float) : x * nan = nan.
Proof.
  apply Prim2SF_inj. rewrite mul_spec.
  change (Prim2SF nan) with S754_nan.
  unfold SF64mul, SFmul. destruct (Prim2SF x); reflexivity.
Qed.

Lemma filter_nan_measurement (f : t float) : snd (filter f nan) = nan.
Proof.
  unfold filter. cbn [snd dadd dsub dmul ddiv Double_binary64].
  rewrite add_nan_r, !sub_nan_l, mul_nan_r. reflexivity.
Qed.

Lemma filter_nan_feedback (f : t float) (x : float) :
  prev_filtered_msrmts_0 f = nan -> snd (filter f x) = nan.
Proof.
  intros Hy. unfold filter. cbn [snd dadd dsub dmul ddiv Double_binary64].
  rewrite Hy, mul_nan_r, sub_nan_r, mul_nan_r. reflexivity.
Qed.

Lemma run_nan_feedback (ys : list float) (f : t float) :
  prev_filtered_msrmts_0 f = nan ->
  snd (run f ys) = repeat nan (List.length ys).
Proof.
  revert f. induction ys as [|y ys IH]; intros f Hy; [reflexivity|].
  rewrite run_cons. cbn [snd List.length repeat].
  rewrite (filter_nan_feedback f y Hy). f_equal.
  apply IH. cbn [filter fst prev_filtered_msrmts_0].
  apply (filter_nan_feedback f y Hy).
Qed.

(** X6: in binary64 one NaN measurement poisons the filter: the call
    that takes it returns NaN and so does every later call, whatever the
    coefficient, the history before and the measurements after. *)
Theorem nan_measurement_poisons_filter :
  forall (f : t float) (xs ys : list float),
    snd (run f (xs ++ nan :: ys))
    = snd (run f xs) ++ repeat nan (S (List.length ys)).
Proof.
  intros f xs ys. rewrite run_app. cbn [snd]. f_equal.
  rewrite run_cons. cbn [snd repeat].
  rewrite filter_nan_measurement. f_equal.
  apply run_nan_feedback. cbn [filter fst prev_filtered_msrmts_0].
  apply filter_nan_measurement.
Qed.

Lemma not_finite_sub_r (x p : float) : not_finite p -> not_finite (x - p).
Proof.
  unfold not_finite. rewrite sub_spec. unfold SF64sub, SFsub.
  intros [Hp|[s Hp]]; rewrite Hp.
  - left. destruct (Prim2SF x); reflexivity.
  - destruct (Prim2SF x) as [sx|sx| |sx mx ex].
    + right. eexists. reflexivity.
    + destruct sx, s; (left; reflexivity) || (right; eexists; reflexivity).
    + left. reflexivity.
    + right. eexists. reflexivity.
Qed.

Lemma not_finite_sub_l (n y : float) : not_finite n -> not_finite (n - y).
Proof.
  unfold not_finite. rewrite sub_spec. unfold SF64sub, SFsub.
  intros [Hn|[s Hn]]; rewrite Hn.
  - left. reflexivity.
  - destruct (Prim2SF y) as [sy|sy| |sy my ey].
    + right. eexists. reflexivity.
    + destruct s, sy; (left; reflexivity) || (right; eexists; reflexivity).
    + left. reflexivity.
    + right. eexists. reflexivity.
Qed.

Lemma not_finite_add_l (n y : float) : not_finite n -> not_finite (n + y).
Proof.
  unfold not_finite. rewrite add_spec. unfold SF64add, SFadd.
  intros [Hn|[s Hn]]; rewrite Hn.
  - left. reflexivity.
  - destruct (Prim2SF y) as [sy|sy| |sy my ey].
    + right. eexists. reflexivity.
    + destruct s, sy; (left; reflexivity) || (right; eexists; reflexivity).
    + left. reflexivity.
    + right. eexists. reflexivity.
Qed.

Lemma not_finite_add_r (x n : float) : not_finite n -> not_finite (x + n).
Proof.
  unfold not_finite. rewrite add_spec. unfold SF64add, SFadd.
  intros [Hn|[s Hn]]; rewrite Hn.
  - left. destruct (Prim2SF x); reflexivity.
  - destruct (Prim2SF x) as [sx|sx| |sx mx ex].
    + right. eexists. reflexivity.
    + destruct sx, s; (left; reflexivity) || (right; eexists; reflexivity).
    + left. reflexivity.
    + right. eexists. reflexivity.
Qed.

Lemma not_finite_mul_l (n y : float) : not_finite n -> not_finite (n * y).
Proof.
  unfold not_finite. rewrite mul_spec. unfold SF64mul, SFmul.
  intros [Hn|[s Hn]]; rewrite Hn.
  - left. reflexivity.
  - destruct (Prim2SF y) as [sy|sy| |sy my ey].
    + left. reflexivity.
    + right. eexists. reflexivity.
    + left. reflexivity.
    + right. eexists. reflexivity.
Qed.

(** The reciprocal of an infinity or a NaN is a zero or a NaN, and its
    product with an infinity or a NaN is a NaN. *)
Lemma reciprocal_times_not_finite (d n : float) :
  not_finite d -> not_finite n -> (1 / d) * n = nan.
Proof.
  unfold not_finite. intros Hd Hn.
  apply Prim2SF_inj. rewrite mul_spec, div_spec.
  destruct Hd as [Hd|[sd Hd]]; rewrite Hd;
    destruct Hn as [Hn|[sn Hn]]; rewrite Hn; reflexivity.
Qed.

(** X7: in binary64, when the square of the coefficient overflows to an
    infinity (or the coefficient is a NaN, so that its square is one),
    every call of [filter] returns NaN, whatever the history and the
    measurement. *)
Theorem overflowing_coefficient_returns_nan :
  forall (f : t float) (x : float),
    not_finite (filter_coeff_ f * filter_coeff_ f) ->
    snd (filter f x) = nan.
Proof.
  intros f x Hsq. unfold filter, divisor.
  cbn [snd dadd dsub dmul ddiv of_int lit_1_414 Double_binary64].
  apply reciprocal_times_not_finite.
  - apply not_finite_add_l, not_finite_add_r, Hsq.
  - apply not_finite_sub_l, not_finite_sub_r, not_finite_mul_l,
      not_finite_add_l, not_finite_sub_l, Hsq.
Qed.

Lemma overflowing_coefficient_returns_nan_witness :
  not_finite (filter_coeff_ (new 0x1p+600) * filter_coeff_ (new 0x1p+600)) /\
  snd (filter (new 0x1p+600) 1) = nan.
Proof.
  assert (Hsq : not_finite (filter_coeff_ (new 0x1p+600)
                            * filter_coeff_ (new 0x1p+600)))
    by (right; exists false; vm_compute; reflexivity).
  split; [exact Hsq|].
  apply (overflowing_coefficient_returns_nan (new 0x1p+600) 1 Hsq).
Defined.

End FilterBinary64.
